(** * esbuild-plugin-cpp: the load interceptor of [src/index.js]

    A shallow embedding of [cppPlugin] and of the load callback it
    registers, together with the small part of the JavaScript runtime
    ([Array.prototype.map], [ToString], promisified
    [child_process.execFile]) and of the build host ([build.onLoad]) that
    the plugin is written against. *)

From Stdlib Require Import Ascii String.
From stdpp Require Import gmap strings list fin_maps.

Local Open Scope string_scope.
Local Open Scope list_scope.

(** ** JavaScript values and the array store *)

(** Arrays are objects: two variables may name the same array, and a
    mutation through one is seen through the other.  They live in a store
    and values refer to them by location. *)
Abbreviation loc := positive.

(** The values that can reach [cppPlugin] and [execFile] here. *)
Inductive val : Type :=
| VUndefined
| VNull
| VStr (s : string)
| VArr (l : loc).

(** The README types the option as [string[]]: stored arrays hold
    strings. *)
Abbreviation store := (gmap positive (list string)).

(** A new array object gets a location that is not in use. *)
Definition alloc (h : store) (a : list string) : loc * store :=
  let l := fresh (dom h) in (l, <[l := a]> h).

(** Object literals, as property maps. *)
Abbreviation object := (gmap string val).

(** ** The runtime: [node:child_process] and [node:util] *)

Module Node.

(** What the runtime observes of one child process. *)
Inductive child_outcome : Type :=
| SpawnFailed (code : string)
| Exited (status : Z) (out err : string)
| Killed (signal : string) (out err : string).

(** The operating system, as the capability the plugin depends on:
    a command and its argument vector give an outcome. *)
Definition spawner : Type := string -> list string -> child_outcome.

Inductive error : Type :=
| TypeError (msg : string)
| ChildError (o : child_outcome).

Inductive settled (A : Type) : Type :=
| Fulfilled (a : A)
| Rejected (e : error).
Arguments Fulfilled {A} a.
Arguments Rejected {A} e.

(** The value a promisified [execFile] is fulfilled with. *)
Record ExecResult : Type := { stdout : string; stderr : string }.

(** [ToString]: an array is its elements joined with a comma. *)
Definition ToString (h : store) (v : val) : string :=
  match v with
  | VUndefined => "undefined"
  | VNull => "null"
  | VStr s => s
  | VArr l => String.concat "," (default [] (h !! l))
  end.

(** Every entry of the [args] array becomes one string of the child's
    argument vector. *)
Definition argv (h : store) (args : list val) : list string :=
  map (ToString h) args.

(** [execFile] is called without options: each stream is captured up to
    the default [maxBuffer] of 1 MiB, counted in bytes. *)
Definition maxBuffer : Z := 1024 * 1024.

Definition overflows (s : string) : bool :=
  (maxBuffer <? Z.of_nat (String.length s))%Z.

(** [promisify(child_process.execFile)]: fulfilled with both captured
    streams when the child exits with status 0 and neither stream went
    past [maxBuffer], rejected otherwise.  What the error stream says
    plays no part in the decision.  [ChildError o] stands for the error
    [execFile] makes for the child [o], of whichever kind. *)
Definition execFile (os : spawner) (h : store) (file : string)
    (args : list val) : settled ExecResult :=
  match os file (argv h args) with
  | Exited 0 out err =>
      if overflows out || overflows err
      then Rejected (ChildError (Exited 0 out err))
      else Fulfilled {| stdout := out; stderr := err |}
  | o => Rejected (ChildError o)
  end.

End Node.

Import Node.

(** ** Programs: synchronous code around awaited subprocess calls *)

(** A function body either returns, throws, or awaits [execFile] and goes
    on with what the promise is fulfilled with.  There is no handler in
    the source, so a rejected promise has no continuation. *)
Inductive prog (A : Type) : Type :=
| Ret (a : A)
| Throw (e : error)
| Await (file : string) (args : list val) (k : ExecResult -> prog A).
Arguments Ret {A} a.
Arguments Throw {A} e.
Arguments Await {A} file args k.

(** Running a program over a given operating system: awaiting a rejected
    promise throws at the [await], and nothing catches it. *)
Fixpoint run {A : Type} (os : spawner) (h : store) (p : prog A) : settled A :=
  match p with
  | Ret a => Fulfilled a
  | Throw e => Rejected e
  | Await file args k =>
      match execFile os h file args with
      | Fulfilled r => run os h (k r)
      | Rejected e => Rejected e
      end
  end.

(** The first subprocess request of a program: the executable, the
    [args] array as written, and the argument vector the child gets. *)
Record request : Type :=
  { req_file : string; req_args : list val; req_argv : list string }.

Definition first_request {A : Type} (h : store) (p : prog A) : option request :=
  match p with
  | Await file args _ =>
      Some {| req_file := file; req_args := args; req_argv := argv h args |}
  | _ => None
  end.

(** ** Regular expressions, for the [filter] option *)

Module Regex.

Inductive regex : Type :=
| Void
| Eps
| Chr (c : ascii)
| Any
| Seq (r1 r2 : regex)
| Alt (r1 r2 : regex)
| Star (r : regex).

Fixpoint nullable (r : regex) : bool :=
  match r with
  | Void | Chr _ | Any => false
  | Eps | Star _ => true
  | Seq r1 r2 => nullable r1 && nullable r2
  | Alt r1 r2 => nullable r1 || nullable r2
  end.

(** [.] matches any character but a line terminator. *)
Definition line_terminator (c : ascii) : bool :=
  Ascii.eqb c "010"%char || Ascii.eqb c "013"%char.

Fixpoint deriv (c : ascii) (r : regex) : regex :=
  match r with
  | Void | Eps => Void
  | Chr d => if Ascii.eqb c d then Eps else Void
  | Any => if line_terminator c then Void else Eps
  | Seq r1 r2 =>
      if nullable r1 then Alt (Seq (deriv c r1) r2) (deriv c r2)
      else Seq (deriv c r1) r2
  | Alt r1 r2 => Alt (deriv c r1) (deriv c r2)
  | Star r1 => Seq (deriv c r1) (Star r1)
  end.

(** Some prefix of [s] is matched by [r]. *)
Fixpoint match_prefix (r : regex) (s : string) : bool :=
  nullable r ||
  match s with
  | EmptyString => false
  | String c s' => match_prefix (deriv c r) s'
  end.

(** [r.test(s)]: an unanchored search. *)
Fixpoint test (r : regex) (s : string) : bool :=
  match_prefix r s ||
  match s with
  | EmptyString => false
  | String _ s' => test r s'
  end.

End Regex.

(** ** The host's plugin interface *)

Record OnLoadArgs : Type := { path : string }.

Record OnLoadOptions : Type := { filter : Regex.regex }.

(** An [async (args) => ...] callback, run against the store of the
    moment it is called. *)
Definition LoadCallback : Type := OnLoadArgs -> store -> prog object.

(** The registration object handed to [setup]. *)
Class BuildHost (B : Type) : Type :=
  onLoad : OnLoadOptions -> LoadCallback -> B -> B.

Record Plugin : Type :=
  { name : string;
    setup : forall (B : Type), BuildHost B -> B -> B }.

Module Host.

(** A host that records its registrations in order. *)
Definition Build : Type := list (OnLoadOptions * LoadCallback).

#[export] Instance recording : BuildHost Build :=
  fun o cb b => b ++ [(o, cb)].

Definition install (p : Plugin) (b : Build) : Build := setup p Build recording b.

(** A load event goes to the first callback whose filter matches. *)
Definition dispatch (b : Build) (p : string) : option LoadCallback :=
  snd <$> List.find (fun r => Regex.test (filter (fst r)) p) b.

(** The host's diagnostic channel: the [warnings] property of a load
    result. *)
Definition warnings (r : object) : option val := r !! "warnings".

End Host.

(** ** [src/index.js] *)

(** [(name) => `-D ${name} `] *)
Definition predefine_flag (name : string) : string := "-D " +:+ name +:+ " ".

(** [['-P', predefineNamesOptions, args.path]] when the flag array is not
    empty, [['-P', args.path]] when it is.  The flag array goes in as one
    element, by reference. *)
Definition options (predefineNamesOptions : loc) (args : OnLoadArgs)
    (h : store) : list val :=
  match length (default [] (h !! predefineNamesOptions)) with
  | O => [VStr "-P"; VStr (path args)]
  | S _ => [VStr "-P"; VArr predefineNamesOptions; VStr (path args)]
  end.

(** The callback given to [build.onLoad]. *)
Definition onLoad_callback (predefineNamesOptions : loc) : LoadCallback :=
  fun args h =>
    Await "cpp" (options predefineNamesOptions args h) (fun r =>
      Ret {[ "contents" := VStr (stdout r); "loader" := VStr "js" ]}).

(** The descriptor [cppPlugin] returns, closed over the flag array. *)
Definition descriptor (predefineNamesOptions : loc) : Plugin :=
  {| name := "cppPlugin";
     setup := fun B _ build =>
       onLoad {| filter := Regex.Star Regex.Any |}
              (onLoad_callback predefineNamesOptions) build |}.

(** [cppPlugin (predefineNames = [])]: [undefined] takes the default, a
    new empty array; [.map] makes a new array from the one given, and
    throws on a value that has no such method. *)
Definition cppPlugin (predefineNames : val) (h : store) : prog (Plugin * store) :=
  let '(predefineNames, h) :=
    match predefineNames with
    | VUndefined => let '(l, h') := alloc h [] in (VArr l, h')
    | v => (v, h)
    end in
  match predefineNames with
  | VArr l =>
      match h !! l with
      | Some names =>
          let '(predefineNamesOptions, h') := alloc h (map predefine_flag names) in
          Ret (descriptor predefineNamesOptions, h')
      | None => Throw (TypeError "predefineNames.map is not a function")
      end
  | VStr _ => Throw (TypeError "predefineNames.map is not a function")
  | VNull | VUndefined =>
      Throw (TypeError "Cannot read properties of null (reading 'map')")
  end.

(** ** One build: construct, register, load *)

(** What a host does with the plugin, as [test.esbuild.config.js] has it:
    the plugin is constructed and installed, and a load event for [p] is
    dispatched to it. *)
Definition load_event (os : spawner) (predefineNames : val) (h : store)
    (p : string) : option (option request * settled object) :=
  match cppPlugin predefineNames h with
  | Ret (plugin, h') =>
      match Host.dispatch (Host.install plugin []) p with
      | Some cb =>
          let body := cb {| path := p |} h' in
          Some (first_request h' body, run os h' body)
      | None => None
      end
  | _ => None
  end.

(** ** Vocabulary of the statements *)

(** The macro names a configuration value stands for, when it is the
    omitted argument or an array of the store. *)
Definition config_names (h : store) (predefineNames : val) : option (list string) :=
  match predefineNames with
  | VUndefined => Some []
  | VArr l => h !! l
  | _ => None
  end.

(** What the awaited [execFile] promise makes of a child's outcome, seen
    from the callback's caller. *)
Definition settle (o : child_outcome) : settled object :=
  match o with
  | Exited 0 out err =>
      if overflows out || overflows err
      then Rejected (ChildError o)
      else Fulfilled {[ "contents" := VStr out; "loader" := VStr "js" ]}
  | _ => Rejected (ChildError o)
  end.

(** The [args] array and the argument vector of a load of [p], for a flag
    array at [f] made from [names]. *)
Definition cpp_args (f : loc) (names : list string) (p : string) : list val :=
  match names with
  | [] => [VStr "-P"; VStr p]
  | _ :: _ => [VStr "-P"; VArr f; VStr p]
  end.

Definition cpp_argv (names : list string) (p : string) : list string :=
  match names with
  | [] => ["-P"; p]
  | _ :: _ => ["-P"; String.concat "," (map predefine_flag names); p]
  end.


Definition exited_zero (o : child_outcome) : bool :=
  match o with
  | Exited 0 _ _ => true
  | _ => false
  end.

(** Neither captured stream went past [maxBuffer]. *)
Definition within_buffer (o : child_outcome) : bool :=
  match o with
  | SpawnFailed _ => true
  | Exited _ out err | Killed _ out err =>
      negb (overflows out) && negb (overflows err)
  end.

(** What happens around one plugin instance after construction: the host
    loads a path, or the caller changes one of its arrays. *)
Inductive event : Type :=
| EvLoad (p : string)
| EvMutate (l : loc) (a : list string).

Fixpoint replay (cb : LoadCallback) (h : store) (evs : list event)
    : list (option request) :=
  match evs with
  | [] => []
  | EvLoad p :: evs' => first_request h (cb {| path := p |} h) :: replay cb h evs'
  | EvMutate l a :: evs' => replay cb (<[l := a]> h) evs'
  end.

Fixpoint loaded_paths (evs : list event) : list string :=
  match evs with
  | [] => []
  | EvLoad p :: evs' => p :: loaded_paths evs'
  | EvMutate _ _ :: evs' => loaded_paths evs'
  end.

Definition caller_owned (h : store) (e : event) : Prop :=
  match e with
  | EvLoad _ => True
  | EvMutate l _ => l ∈ dom h
  end.

(** A preprocessor that prints a warning and exits with status zero. *)
Definition os_warning : spawner :=
  fun _ _ => Exited 0 "let a = 1;" "a.js:1:2: warning: w".

(** [s] repeated [2 ^ k] times. *)
Fixpoint doubled (k : nat) (s : string) : string :=
  match k with
  | O => s
  | S k' => doubled k' s +:+ doubled k' s
  end.

(** Two MiB of output. *)
Definition big_output : string := doubled 21 ";".

(** A preprocessor that prints the same warning beside two MiB of output
    and exits with status zero. *)
Definition os_flood : spawner :=
  fun _ _ => Exited 0 big_output "a.js:1:2: warning: w".


(** C6 as the specification words it: a warning with status zero does not
    fail the load, and the result carries it to the host's diagnostic
    channel. *)
Definition warning_surfaced (os : spawner) (f : loc) (args : OnLoadArgs)
    (h : store) : Prop :=
  forall out err : string,
    os "cpp" (argv h (options f args h)) = Exited 0 out err ->
    err <> "" ->
    exists r : object,
      run os h (onLoad_callback f args h) = Fulfilled r
      /\ is_Some (Host.warnings r).

(** Every subprocess request a program makes when run: a fulfilled
    promise lets the body go on, a rejected one ends it. *)
Fixpoint calls {A : Type} (os : spawner) (h : store) (p : prog A) : list request :=
  match p with
  | Ret _ | Throw _ => []
  | Await file args k =>
      {| req_file := file; req_args := args; req_argv := argv h args |}
      :: match execFile os h file args with
         | Fulfilled r => calls os h (k r)
         | Rejected _ => []
         end
  end.

(** ** The store and the runtime *)

Section Allocation.

Variable h : store.

Lemma fresh_unused : h !! fresh (dom h) = None.
Proof. apply not_elem_of_dom, is_fresh. Qed.

Lemma alloc_extends (a : list string) : h ⊆ (alloc h a).2.
Proof. apply insert_subseteq, fresh_unused. Qed.

Lemma alloc_lookup (a : list string) : (alloc h a).2 !! (alloc h a).1 = Some a.
Proof. apply lookup_insert_eq. Qed.

End Allocation.

Lemma regex_test_star (r : Regex.regex) (s : string) :
  Regex.test (Regex.Star r) s = true.
Proof. destruct s; reflexivity. Qed.

(** The filter is a real test: other expressions do reject paths. *)
Example regex_test_rejects :
  Regex.test (Regex.Seq (Regex.Chr "a") (Regex.Chr "b")) "a.js" = false
  /\ Regex.test (Regex.Seq (Regex.Chr ".") (Regex.Star Regex.Any)) "a.js" = true.
Proof. split; reflexivity. Qed.

(** ** The load callback *)

Section Callback.

Variables (os : spawner) (f : loc) (args : OnLoadArgs) (h : store).

(** The callback settles as the awaited promise does. *)
Lemma run_onLoad_callback :
  run os h (onLoad_callback f args h)
  = settle (os "cpp" (argv h (options f args h))).
Proof.
  unfold onLoad_callback, settle. cbn [run]. unfold execFile.
  destruct (os _ _) as [c | st out err | sg out err]; try reflexivity.
  destruct st; try reflexivity.
  destruct (overflows out || overflows err); reflexivity.
Qed.

Lemma first_request_onLoad_callback :
  first_request h (onLoad_callback f args h)
  = Some {| req_file := "cpp"; req_args := options f args h;
            req_argv := argv h (options f args h) |}.
Proof. reflexivity. Qed.

(** The [args] array, once the content of the flag array is known. *)
Lemma options_flags (names : list string) :
  h !! f = Some (map predefine_flag names) ->
  options f args h = cpp_args f names (path args)
  /\ argv h (options f args h) = cpp_argv names (path args).
Proof.
  intros Hf. unfold options, cpp_args, cpp_argv. rewrite Hf.
  destruct names as [| n names]; cbn; [done |].
  by rewrite Hf.
Qed.

End Callback.

Lemma settle_fulfilled (o : child_outcome) (r : object) :
  settle o = Fulfilled r ->
  exists out err, o = Exited 0 out err
    /\ overflows out = false /\ overflows err = false
    /\ r = {[ "contents" := VStr out; "loader" := VStr "js" ]}.
Proof.
  destruct o as [c | st out err | sg out err]; try discriminate.
  destruct st; try discriminate. cbn [settle].
  destruct (overflows out) eqn:Hout, (overflows err) eqn:Herr;
    try discriminate.
  intros [= <-]. by exists out, err.
Qed.

Lemma settle_within (out err : string) :
  overflows out = false -> overflows err = false ->
  settle (Exited 0 out err)
  = Fulfilled {[ "contents" := VStr out; "loader" := VStr "js" ]}.
Proof. intros Hout Herr. cbn [settle]. by rewrite Hout, Herr. Qed.

Lemma settle_overflow (o : child_outcome) :
  within_buffer o = false -> settle o = Rejected (ChildError o).
Proof.
  destruct o as [c | st out err | sg out err]; try reflexivity.
  destruct st; try reflexivity. cbn [within_buffer settle].
  destruct (overflows out), (overflows err); try reflexivity. discriminate.
Qed.

Lemma settle_rejected (o : child_outcome) :
  exited_zero o = false -> settle o = Rejected (ChildError o).
Proof.
  destruct o as [c | st out err | sg out err]; try reflexivity.
  destruct st; [discriminate | reflexivity | reflexivity].
Qed.

(** ** Construction *)

(** For the omitted argument and for an array of strings, [cppPlugin]
    returns the descriptor closed over a new array that holds one flag
    per name, and leaves every array of the caller as it was. *)
Lemma cppPlugin_returns (h : store) (cfg : val) (names : list string) :
  config_names h cfg = Some names ->
  exists (f : loc) (h' : store),
    cppPlugin cfg h = Ret (descriptor f, h')
    /\ h' !! f = Some (map predefine_flag names)
    /\ h !! f = None
    /\ h ⊆ h'.
Proof.
  destruct cfg as [| | s | l]; cbn [config_names]; try discriminate.
  - intros [= <-]. unfold cppPlugin.
    set (h0 := (alloc h []).2).
    exists (fresh (dom h0)), (alloc h0 []).2.
    cbn [alloc fst snd] in *. subst h0.
    rewrite lookup_insert_eq. cbn [map].
    split; [reflexivity |]. split; [apply lookup_insert_eq |].
    split.
    + pose proof (fresh_unused (<[fresh (dom h):=[]]> h)) as Hn.
      eapply lookup_weaken_None; [exact Hn |].
      apply insert_subseteq, fresh_unused.
    + etrans; [apply (alloc_extends h []) |]. apply insert_subseteq, fresh_unused.
  - intros Hl. exists (fresh (dom h)), (alloc h (map predefine_flag names)).2.
    unfold cppPlugin. rewrite Hl. cbn [alloc fst snd].
    split; [reflexivity |]. split; [apply lookup_insert_eq |].
    split; [apply fresh_unused |]. apply insert_subseteq, fresh_unused.
Qed.

(** Values without a [map] method make construction throw. *)
Example cppPlugin_throws (h : store) :
  cppPlugin VNull h
  = Throw (TypeError "Cannot read properties of null (reading 'map')")
  /\ cppPlugin (VStr "DEBUG") h
     = Throw (TypeError "predefineNames.map is not a function").
Proof. split; reflexivity. Qed.

Lemma dispatch_descriptor (f : loc) (p : string) :
  Host.dispatch (Host.install (descriptor f) []) p = Some (onLoad_callback f).
Proof.
  unfold Host.dispatch, Host.install, descriptor, onLoad, Host.recording.
  cbn. by rewrite regex_test_star.
Qed.

(** One load through a freshly built plugin. *)
Lemma load_event_returns (os : spawner) (h : store) (cfg : val)
    (names : list string) (p : string) :
  config_names h cfg = Some names ->
  exists f : loc,
    load_event os cfg h p
    = Some (Some {| req_file := "cpp"; req_args := cpp_args f names p;
                    req_argv := cpp_argv names p |},
            settle (os "cpp" (cpp_argv names p))).
Proof.
  intros Hc. destruct (cppPlugin_returns h cfg names Hc) as (f & h' & Hp & Hf & _ & _).
  exists f. unfold load_event. rewrite Hp, dispatch_descriptor.
  rewrite run_onLoad_callback, first_request_onLoad_callback.
  destruct (options_flags f {| path := p |} h' names Hf) as [-> ->].
  reflexivity.
Qed.

(** ** The argument list *)

(** With names configured the argument vector has three entries however
    many names there are: the flag array is one element of [args]. *)
Remark cpp_argv_length (names : list string) (p : string) :
  names <> [] -> length (cpp_argv names p) = 3.
Proof. destruct names; [congruence | reflexivity]. Qed.

(** C1, at the input where the code departs from it.  Built with the two
    names [A] and [B], the plugin hands [execFile] the array
    [['-P', ['-D A ', '-D B '], 'f.js']]: the preprocessor gets three
    arguments, the middle one being the text [-D A ,-D B ], and not one
    predefine flag per configured name. *)
Theorem two_names_single_argument (os : spawner) :
  fst <$> load_event os (VArr 1) {[ 1%positive := ["A"; "B"] ]} "f.js"
  = Some (Some {| req_file := "cpp";
                  req_args := [VStr "-P"; VArr 2; VStr "f.js"];
                  req_argv := ["-P"; "-D A ,-D B "; "f.js"] |}).
Proof. vm_compute. reflexivity. Qed.

(** C3.  For an empty macro-name list, given or taken by default, the
    argument list is the suppression flag [-P] and the file path, and
    nothing else. *)
Theorem empty_names_argument_list (os : spawner) (h : store) (cfg : val)
    (p : string) :
  config_names h cfg = Some [] ->
  exists res : settled object,
    load_event os cfg h p
    = Some (Some {| req_file := "cpp";
                    req_args := [VStr "-P"; VStr p];
                    req_argv := ["-P"; p] |}, res).
Proof.
  intros Hc. destruct (load_event_returns os h cfg [] p Hc) as [f ->].
  by eexists.
Qed.

Lemma empty_names_argument_list_witness :
  config_names ∅ VUndefined = Some []
  /\ exists res : settled object,
       load_event (fun _ _ => SpawnFailed "ENOENT") VUndefined ∅ "a.js"
       = Some (Some {| req_file := "cpp";
                       req_args := [VStr "-P"; VStr "a.js"];
                       req_argv := ["-P"; "a.js"] |}, res).
Proof.
  split; [reflexivity |].
  apply (empty_names_argument_list _ ∅ VUndefined "a.js"). reflexivity.
Defined.

(** C10.  The factory called with no argument and the factory called with
    an empty array give plugins that make the same argument list and the
    same result for every load event. *)
Theorem default_is_empty_list (os : spawner) (h : store) (l : loc) (p : string) :
  h !! l = Some [] ->
  load_event os VUndefined h p = load_event os (VArr l) h p
  /\ is_Some (load_event os VUndefined h p).
Proof.
  intros Hl.
  destruct (load_event_returns os h VUndefined [] p eq_refl) as [f1 H1].
  destruct (load_event_returns os h (VArr l) [] p Hl) as [f2 H2].
  rewrite H1, H2. split; [reflexivity | by eexists].
Qed.

Lemma default_is_empty_list_witness :
  ({[ 1%positive := [] ]} : store) !! 1%positive = Some []
  /\ load_event (fun _ a => Exited 0 (String.concat " " a) "") VUndefined
       {[ 1%positive := [] ]} "a.js"
     = load_event (fun _ a => Exited 0 (String.concat " " a) "") (VArr 1)
         {[ 1%positive := [] ]} "a.js"
  /\ is_Some (load_event (fun _ a => Exited 0 (String.concat " " a) "")
                VUndefined {[ 1%positive := [] ]} "a.js").
Proof.
  split; [reflexivity |].
  apply (default_is_empty_list _ {[ 1%positive := [] ]} 1 "a.js"). reflexivity.
Defined.

(** ** Results and failures *)

(** C2.  When the subprocess cannot be started or exits with a non-zero
    status, the load callback is rejected with that failure: it is never
    fulfilled with a result, empty or partial. *)
Theorem subprocess_failure_propagates (os : spawner) (f : loc)
    (args : OnLoadArgs) (h : store) (o : child_outcome) :
  os "cpp" (argv h (options f args h)) = o ->
  (exists code, o = SpawnFailed code)
  \/ (exists st out err, o = Exited st out err /\ st <> 0%Z) ->
  run os h (onLoad_callback f args h) = Rejected (ChildError o)
  /\ forall r : object, run os h (onLoad_callback f args h) <> Fulfilled r.
Proof.
  intros Ho Hfail. rewrite run_onLoad_callback, Ho.
  assert (exited_zero o = false) as Hz.
  { destruct Hfail as [[code ->] | (st & out & err & -> & Hst)]; [reflexivity |].
    destruct st; [congruence | reflexivity | reflexivity]. }
  rewrite (settle_rejected o Hz). split; [reflexivity | discriminate].
Qed.

Lemma subprocess_failure_propagates_witness :
  (fun _ _ => SpawnFailed "ENOENT")
    "cpp" (argv {[ 1%positive := ["-D DEBUG "] ]}
                (options 1 {| path := "a.js" |} {[ 1%positive := ["-D DEBUG "] ]}))
  = SpawnFailed "ENOENT"
  /\ ((exists code, SpawnFailed "ENOENT" = SpawnFailed code)
      \/ (exists st out err,
            SpawnFailed "ENOENT" = Exited st out err /\ st <> 0%Z))
  /\ run (fun _ _ => SpawnFailed "ENOENT") {[ 1%positive := ["-D DEBUG "] ]}
         (onLoad_callback 1 {| path := "a.js" |} {[ 1%positive := ["-D DEBUG "] ]})
     = Rejected (ChildError (SpawnFailed "ENOENT")).
Proof.
  split; [reflexivity |]. split; [left; by exists "ENOENT" |].
  apply (subprocess_failure_propagates (fun _ _ => SpawnFailed "ENOENT") 1
           {| path := "a.js" |} {[ 1%positive := ["-D DEBUG "] ]}
           (SpawnFailed "ENOENT")).
  - reflexivity.
  - left. by exists "ENOENT".
Defined.

(** C4.  When the load completes successfully, the subprocess having
    exited with status zero and both captured streams being within the
    buffer, it is fulfilled with the object whose [contents] is the
    captured standard output and whose [loader] is ['js'], whatever the
    configuration and the file; the callback is fulfilled with no other
    result. *)
Theorem successful_load_result (os : spawner) (f : loc) (args : OnLoadArgs)
    (h : store) (out err : string) :
  os "cpp" (argv h (options f args h)) = Exited 0 out err ->
  overflows out = false ->
  overflows err = false ->
  exists r : object,
    run os h (onLoad_callback f args h) = Fulfilled r
    /\ r !! "contents" = Some (VStr out)
    /\ r !! "loader" = Some (VStr "js")
    /\ dom r = {[ "contents"; "loader" ]}
    /\ forall r' : object,
         run os h (onLoad_callback f args h) = Fulfilled r' -> r' = r.
Proof.
  intros Ho Hout Herr.
  rewrite run_onLoad_callback, Ho, (settle_within out err Hout Herr).
  eexists. split; [reflexivity |].
  split; [by simplify_map_eq |]. split; [by simplify_map_eq |].
  split; [| congruence].
  rewrite dom_insert_L, dom_singleton_L. reflexivity.
Qed.

Lemma successful_load_result_witness :
  (fun _ _ => Exited 0 "let a = 1;" "")
    "cpp" (argv {[ 1%positive := ["-D DEBUG "] ]}
                (options 1 {| path := "a.js" |} {[ 1%positive := ["-D DEBUG "] ]}))
  = Exited 0 "let a = 1;" ""
  /\ overflows "let a = 1;" = false
  /\ overflows "" = false
  /\ exists r : object,
       run (fun _ _ => Exited 0 "let a = 1;" "") {[ 1%positive := ["-D DEBUG "] ]}
           (onLoad_callback 1 {| path := "a.js" |} {[ 1%positive := ["-D DEBUG "] ]})
       = Fulfilled r
       /\ r !! "contents" = Some (VStr "let a = 1;")
       /\ r !! "loader" = Some (VStr "js").
Proof.
  split; [reflexivity |]. split; [reflexivity |]. split; [reflexivity |].
  destruct (successful_load_result (fun _ _ => Exited 0 "let a = 1;" "") 1
              {| path := "a.js" |} {[ 1%positive := ["-D DEBUG "] ]}
              "let a = 1;" "" eq_refl eq_refl eq_refl) as (r & Hr & Hc & Hl & _).
  exists r. split; [exact Hr |]. split; [exact Hc | exact Hl].
Defined.

(** A load is fulfilled only when the subprocess exited with status zero
    and neither stream went past the buffer, and then with that
    result. *)
Lemma fulfilled_load_inv (os : spawner) (f : loc) (args : OnLoadArgs)
    (h : store) (r : object) :
  run os h (onLoad_callback f args h) = Fulfilled r ->
  exists out err,
    os "cpp" (argv h (options f args h)) = Exited 0 out err
    /\ overflows out = false /\ overflows err = false
    /\ r = {[ "contents" := VStr out; "loader" := VStr "js" ]}.
Proof. rewrite run_onLoad_callback. apply settle_fulfilled. Qed.

(** The length of what the flooding preprocessor prints. *)
Lemma length_append (a b : string) :
  String.length (a +:+ b) = String.length a + String.length b.
Proof.
  induction a as [| x a IH]; [reflexivity |].
  change (S (String.length (a +:+ b)) = S (String.length a + String.length b)).
  by rewrite IH.
Qed.

Lemma length_doubled (k : nat) (s : string) :
  Z.of_nat (String.length (doubled k s))
  = (2 ^ Z.of_nat k * Z.of_nat (String.length s))%Z.
Proof.
  induction k as [| k IH].
  - change (doubled 0 s) with s. lia.
  - change (doubled (S k) s) with (doubled k s +:+ doubled k s).
    rewrite length_append, Nat2Z.inj_add, IH, Nat2Z.inj_succ, Z.pow_succ_r; lia.
Qed.

Lemma big_output_overflows : overflows big_output = true.
Proof.
  unfold overflows, big_output. rewrite length_doubled. reflexivity.
Qed.

Lemma flooded_load_rejected (f : loc) (args : OnLoadArgs) (h : store) :
  run os_flood h (onLoad_callback f args h)
  = Rejected (ChildError (Exited 0 big_output "a.js:1:2: warning: w")).
Proof.
  rewrite run_onLoad_callback. unfold os_flood. cbn [settle].
  by rewrite big_output_overflows.
Qed.




(** C6 fails twice.  For the preprocessor that warns and exits with
    status zero the load is fulfilled, but the result has no [warnings]
    property; for the one that prints the warning beside two MiB of
    output the load itself fails, status zero or not. *)
Lemma warning_surfaced_refuted :
  ~ warning_surfaced os_warning 1 {| path := "a.js" |}
      {[ 1%positive := ["-D DEBUG "] ]}
  /\ ~ warning_surfaced os_flood 1 {| path := "a.js" |}
         {[ 1%positive := ["-D DEBUG "] ]}.
Proof.
  split; intros Hc.
  - destruct (Hc "let a = 1;" "a.js:1:2: warning: w" eq_refl) as (r & Hr & Hw);
      [discriminate |].
    rewrite run_onLoad_callback in Hr. cbn in Hr. injection Hr as <-.
    destruct Hw as [w Hw]. vm_compute in Hw. discriminate Hw.
  - destruct (Hc big_output "a.js:1:2: warning: w" eq_refl) as (r & Hr & _);
      [discriminate |].
    rewrite flooded_load_rejected in Hr. discriminate Hr.
Qed.

(** C6, amended.  A warning on the error stream with status zero, both
    streams being within the buffer, does not fail the load; the warning
    text is dropped: the result holds [contents] and [loader] only, has
    no [warnings] property, and is the result the same output gives with
    an empty error stream. *)
Theorem warning_dropped (os : spawner) (f : loc) (args : OnLoadArgs)
    (h : store) (out err : string) :
  os "cpp" (argv h (options f args h)) = Exited 0 out err ->
  err <> "" ->
  overflows out = false ->
  overflows err = false ->
  exists r : object,
    run os h (onLoad_callback f args h) = Fulfilled r
    /\ r = {[ "contents" := VStr out; "loader" := VStr "js" ]}
    /\ Host.warnings r = None
    /\ settle (Exited 0 out "") = Fulfilled r.
Proof.
  intros Ho _ Hout Herr.
  rewrite run_onLoad_callback, Ho, (settle_within out err Hout Herr).
  eexists. split; [reflexivity |]. split; [reflexivity |].
  split; [unfold Host.warnings; by simplify_map_eq |].
  by apply settle_within.
Qed.

Lemma warning_dropped_witness :
  os_warning "cpp" (argv {[ 1%positive := ["-D DEBUG "] ]}
                      (options 1 {| path := "a.js" |} {[ 1%positive := ["-D DEBUG "] ]}))
  = Exited 0 "let a = 1;" "a.js:1:2: warning: w"
  /\ "a.js:1:2: warning: w" <> ""
  /\ overflows "let a = 1;" = false
  /\ overflows "a.js:1:2: warning: w" = false
  /\ exists r : object,
       run os_warning {[ 1%positive := ["-D DEBUG "] ]}
           (onLoad_callback 1 {| path := "a.js" |} {[ 1%positive := ["-D DEBUG "] ]})
       = Fulfilled r
       /\ Host.warnings r = None.
Proof.
  split; [reflexivity |]. split; [discriminate |].
  split; [reflexivity |]. split; [reflexivity |].
  destruct (warning_dropped os_warning 1 {| path := "a.js" |}
              {[ 1%positive := ["-D DEBUG "] ]} "let a = 1;"
              "a.js:1:2: warning: w" eq_refl) as (r & Hr & _ & Hw & _);
    [discriminate | reflexivity | reflexivity |].
  exists r. split; [exact Hr | exact Hw].
Defined.

(** ** Construction and registration *)

(** C7.  For every sequence of macro-name strings, and for the omitted
    argument, construction returns: it awaits no subprocess, throws
    nothing, leaves the caller's store as it was, and gives a descriptor
    named ['cppPlugin'] with its setup routine. *)
Theorem construction_returns_descriptor (h : store) (cfg : val)
    (names : list string) :
  config_names h cfg = Some names ->
  exists (plugin : Plugin) (h' : store) (f : loc),
    cppPlugin cfg h = Ret (plugin, h')
    /\ name plugin = "cppPlugin"
    /\ setup plugin = setup (descriptor f)
    /\ h ⊆ h'.
Proof.
  intros Hc. destruct (cppPlugin_returns h cfg names Hc) as (f & h' & Hp & _ & _ & Hsub).
  by exists (descriptor f), h', f.
Qed.

Lemma construction_returns_descriptor_witness :
  config_names {[ 1%positive := ["DEBUG"] ]} (VArr 1) = Some ["DEBUG"]
  /\ exists (plugin : Plugin) (h' : store),
       cppPlugin (VArr 1) {[ 1%positive := ["DEBUG"] ]} = Ret (plugin, h')
       /\ name plugin = "cppPlugin".
Proof.
  split; [reflexivity |].
  destruct (construction_returns_descriptor {[ 1%positive := ["DEBUG"] ]}
              (VArr 1) ["DEBUG"]) as (plugin & h' & f & Hp & Hn & _);
    [reflexivity |].
  exists plugin, h'. split; [exact Hp | exact Hn].
Defined.

(** C8.  On every registration object the setup routine makes one call of
    [onLoad], with the filter [/.*/] and the load callback; a recording
    host ends with that one registration more, the filter accepts every
    path, and every load event reaches the callback. *)
Theorem setup_registers_one_callback (h : store) (cfg : val)
    (names : list string) :
  config_names h cfg = Some names ->
  exists (plugin : Plugin) (h' : store) (cb : LoadCallback),
    cppPlugin cfg h = Ret (plugin, h')
    /\ (forall (B : Type) (host : BuildHost B) (build : B),
          setup plugin B host build
          = onLoad {| filter := Regex.Star Regex.Any |} cb build)
    /\ (forall build : Host.Build,
          Host.install plugin build
          = build ++ [({| filter := Regex.Star Regex.Any |}, cb)])
    /\ (forall p : string, Regex.test (Regex.Star Regex.Any) p = true)
    /\ (forall p : string, Host.dispatch (Host.install plugin []) p = Some cb).
Proof.
  intros Hc. destruct (cppPlugin_returns h cfg names Hc) as (f & h' & Hp & _).
  exists (descriptor f), h', (onLoad_callback f).
  split; [exact Hp |]. split; [reflexivity |]. split; [reflexivity |].
  split; [apply regex_test_star | apply dispatch_descriptor].
Qed.

Lemma setup_registers_one_callback_witness :
  config_names {[ 1%positive := ["DEBUG"] ]} (VArr 1) = Some ["DEBUG"]
  /\ exists (plugin : Plugin) (h' : store),
       cppPlugin (VArr 1) {[ 1%positive := ["DEBUG"] ]} = Ret (plugin, h')
       /\ length (Host.install plugin []) = 1.
Proof.
  split; [reflexivity |].
  destruct (setup_registers_one_callback {[ 1%positive := ["DEBUG"] ]}
              (VArr 1) ["DEBUG"]) as (plugin & h' & cb & Hp & _ & Hi & _);
    [reflexivity |].
  exists plugin, h'. split; [exact Hp |]. by rewrite Hi.
Defined.

(** ** The captured flags *)

(** While the flag array is left alone, every load reads the same
    flags from it. *)
Lemma replay_stable (f : loc) (names : list string) (h0 : store)
    (evs : list event) :
  h0 !! f = None ->
  Forall (caller_owned h0) evs ->
  forall h : store,
    h !! f = Some (map predefine_flag names) ->
    replay (onLoad_callback f) h evs
    = map (fun p => Some {| req_file := "cpp";
                            req_args := cpp_args f names p;
                            req_argv := cpp_argv names p |})
          (loaded_paths evs).
Proof.
  intros Hf0 Hown. induction Hown as [| e evs He _ IH]; intros h Hf; [reflexivity |].
  destruct e as [p | l a]; cbn [replay loaded_paths map].
  - rewrite first_request_onLoad_callback.
    destruct (options_flags f {| path := p |} h names Hf) as [-> ->].
    cbn [path]. f_equal. by apply IH.
  - apply IH. rewrite lookup_insert_ne; [exact Hf |].
    intros ->. cbn [caller_owned] in He.
    apply elem_of_dom in He as [x Hx]. congruence.
Qed.

(** C9.  After construction, whatever the caller does to the arrays it
    holds, its macro-name array among them, and however many load events
    come, every load is given the flags derived from the names as they
    were at construction. *)
Theorem flags_fixed_after_construction (h : store) (cfg : val)
    (names : list string) (evs : list event) :
  config_names h cfg = Some names ->
  Forall (caller_owned h) evs ->
  exists (plugin : Plugin) (h' : store) (cb : LoadCallback) (f : loc),
    cppPlugin cfg h = Ret (plugin, h')
    /\ (forall p : string, Host.dispatch (Host.install plugin []) p = Some cb)
    /\ h' !! f = Some (map predefine_flag names)
    /\ replay cb h' evs
       = map (fun p => Some {| req_file := "cpp";
                               req_args := cpp_args f names p;
                               req_argv := cpp_argv names p |})
             (loaded_paths evs).
Proof.
  intros Hc Hown.
  destruct (cppPlugin_returns h cfg names Hc) as (f & h' & Hp & Hf & Hnew & _).
  exists (descriptor f), h', (onLoad_callback f), f.
  split; [exact Hp |]. split; [apply dispatch_descriptor |].
  split; [exact Hf |]. by apply (replay_stable f names h).
Qed.

Lemma flags_fixed_after_construction_witness :
  config_names {[ 1%positive := ["DEBUG"] ]} (VArr 1) = Some ["DEBUG"]
  /\ Forall (caller_owned {[ 1%positive := ["DEBUG"] ]})
       [EvLoad "a.js"; EvMutate 1 ["X"; "Y"]; EvLoad "b.js"]
  /\ exists (plugin : Plugin) (h' : store) (cb : LoadCallback),
       cppPlugin (VArr 1) {[ 1%positive := ["DEBUG"] ]} = Ret (plugin, h')
       /\ map (option_map req_argv)
            (replay cb h' [EvLoad "a.js"; EvMutate 1 ["X"; "Y"]; EvLoad "b.js"])
          = [Some ["-P"; "-D DEBUG "; "a.js"]; Some ["-P"; "-D DEBUG "; "b.js"]].
Proof.
  assert (Forall (caller_owned {[ 1%positive := ["DEBUG"] ]})
            [EvLoad "a.js"; EvMutate 1 ["X"; "Y"]; EvLoad "b.js"]) as Hown.
  { repeat first [apply Forall_cons_2 | apply Forall_nil_2];
      cbn [caller_owned]; try exact I.
    apply elem_of_dom. by eexists. }
  split; [reflexivity |]. split; [exact Hown |].
  destruct (flags_fixed_after_construction {[ 1%positive := ["DEBUG"] ]}
              (VArr 1) ["DEBUG"]
              [EvLoad "a.js"; EvMutate 1 ["X"; "Y"]; EvLoad "b.js"]
              (reflexivity _) Hown)
    as (plugin & h' & cb & f & Hp & _ & _ & Hr).
  exists plugin, h', cb. split; [exact Hp |]. rewrite Hr. reflexivity.
Defined.

(** The store does carry aliasing: a callback closed over the caller's
    own array, instead of the copy [map] makes, would see the change. *)
Example shared_array_would_change :
  map (option_map req_argv)
    (replay (onLoad_callback 1) {[ 1%positive := ["-D DEBUG "] ]}
       [EvLoad "a.js"; EvMutate 1 ["-D X "]; EvLoad "b.js"])
  = [Some ["-P"; "-D DEBUG "; "a.js"]; Some ["-P"; "-D X "; "b.js"]].
Proof. vm_compute. reflexivity. Qed.

(** * Further properties of [src/index.js] *)

(** ** Strings built by the flag template *)

Lemma append_cons (x : ascii) (a b : string) :
  String x a +:+ b = String x (a +:+ b).
Proof. reflexivity. Qed.

Lemma append_assoc (a b c : string) : (a +:+ b) +:+ c = a +:+ (b +:+ c).
Proof.
  induction a as [| x a IH]; [reflexivity |].
  rewrite !append_cons. f_equal. exact IH.
Qed.

Lemma append_space_inj (n m : string) : n +:+ " " = m +:+ " " -> n = m.
Proof.
  revert m. induction n as [| x n IH]; intros [| y m] H.
  - reflexivity.
  - rewrite append_cons in H. injection H as <- H. destruct m; discriminate H.
  - rewrite append_cons in H. injection H as <- H. destruct n; discriminate H.
  - rewrite !append_cons in H. injection H as <- H. f_equal. by apply IH.
Qed.

Lemma predefine_flag_inj (n m : string) :
  predefine_flag n = predefine_flag m -> n = m.
Proof.
  unfold predefine_flag. rewrite !append_cons.
  intros [= H]. by apply append_space_inj.
Qed.

Lemma predefine_flag_nonempty (n : string) : predefine_flag n <> "".
Proof. discriminate. Qed.

Lemma joined_flags_nonempty (n : string) (names : list string) :
  String.concat "," (map predefine_flag (n :: names)) <> "".
Proof. destruct names; discriminate. Qed.

(** ** The flags derived at construction *)

(** Construction stores the flags in a new array, at a location the
    caller's store did not use, and leaves every array of the caller as it
    was.  The new array has one flag per configured name, in the
    configured order and with duplicates kept: entry [i] is the text
    [-D], a space, name [i] and a trailing space. *)
Theorem derived_flags_follow_names (h : store) (cfg : val) (names : list string) :
  config_names h cfg = Some names ->
  exists (f : loc) (h' : store) (flags : list string),
    cppPlugin cfg h = Ret (descriptor f, h')
    /\ h !! f = None
    /\ h ⊆ h'
    /\ h' !! f = Some flags
    /\ length flags = length names
    /\ forall (i : nat) (n : string),
         names !! i = Some n -> flags !! i = Some ("-D " +:+ n +:+ " ").
Proof.
  intros Hc.
  destruct (cppPlugin_returns h cfg names Hc) as (f & h' & Hp & Hf & Hnew & Hsub).
  exists f, h', (map predefine_flag names).
  split; [exact Hp |]. split; [exact Hnew |]. split; [exact Hsub |].
  split; [exact Hf |]. split; [apply length_map |].
  intros i n Hi. change (map predefine_flag names) with (predefine_flag <$> names).
  by rewrite list_lookup_fmap, Hi.
Qed.

Lemma derived_flags_follow_names_witness :
  config_names {[ 1%positive := ["A"; "B"; "A"] ]} (VArr 1) = Some ["A"; "B"; "A"]
  /\ exists (f : loc) (h' : store) (flags : list string),
       cppPlugin (VArr 1) {[ 1%positive := ["A"; "B"; "A"] ]} = Ret (descriptor f, h')
       /\ ({[ 1%positive := ["A"; "B"; "A"] ]} : store) !! f = None
       /\ h' !! 1%positive = Some ["A"; "B"; "A"]
       /\ h' !! f = Some flags
       /\ length flags = 3.
Proof.
  split; [reflexivity |].
  destruct (derived_flags_follow_names {[ 1%positive := ["A"; "B"; "A"] ]}
              (VArr 1) ["A"; "B"; "A"])
    as (f & h' & flags & Hp & Hnew & Hsub & Hf & Hlen & _); [reflexivity |].
  exists f, h', flags. split; [exact Hp |]. split; [exact Hnew |].
  split; [| by split].
  eapply lookup_weaken; [| exact Hsub]. reflexivity.
Defined.

(** Different name lists never give the same flag array: the names can
    be read back from the flags. *)
Theorem derived_flags_determine_names (names1 names2 : list string) :
  map predefine_flag names1 = map predefine_flag names2 -> names1 = names2.
Proof.
  revert names2. induction names1 as [| n names1 IH]; intros [| m names2] H;
    try discriminate H; [reflexivity |].
  pose proof (f_equal (hd "") H) as Hn. pose proof (f_equal (@tl string) H) as Hrest.
  cbn [map hd tl] in Hn, Hrest.
  f_equal; [by apply predefine_flag_inj | by apply IH].
Qed.

Lemma derived_flags_determine_names_witness :
  map predefine_flag ["DEBUG"] = map predefine_flag ["DEBUG"]
  /\ ["DEBUG"] = ["DEBUG"].
Proof.
  split; [reflexivity |].
  apply (derived_flags_determine_names ["DEBUG"] ["DEBUG"]). reflexivity.
Defined.

(** ** The argument list, for every configuration *)

(** Whatever the store holds for the flag array, the argument vector
    starts with [-P], ends with the path as it was given, and has at most
    one argument in between: none exactly when the flag array is empty. *)
Theorem argument_vector_shape (f : loc) (args : OnLoadArgs) (h : store) :
  exists mid : list string,
    argv h (options f args h) = "-P" :: mid ++ [path args]
    /\ length mid <= 1
    /\ (mid = [] <-> default [] (h !! f) = []).
Proof.
  unfold options. destruct (default [] (h !! f)) as [| x flags] eqn:Hflags.
  - exists []. cbn. split; [reflexivity |]. split; [lia | done].
  - exists [ToString h (VArr f)]. cbn [length argv map app].
    split; [reflexivity |]. split; [lia |]. split; discriminate.
Qed.

(** With one name or more configured, [args] is the three-element array
    [-P], the flag array itself, the path: the preprocessor gets exactly
    three arguments, the second being all flags joined by commas. *)
Theorem names_travel_as_one_argument (os : spawner) (h : store) (cfg : val)
    (names : list string) (p : string) :
  config_names h cfg = Some names ->
  names <> [] ->
  exists (f : loc) (res : settled object),
    load_event os cfg h p
    = Some (Some {| req_file := "cpp";
                    req_args := [VStr "-P"; VArr f; VStr p];
                    req_argv := ["-P";
                                 String.concat "," (map predefine_flag names);
                                 p] |}, res).
Proof.
  intros Hc Hne. destruct (load_event_returns os h cfg names p Hc) as [f ->].
  destruct names as [| n names]; [congruence |]. by eexists f, _.
Qed.

Lemma names_travel_as_one_argument_witness :
  config_names {[ 1%positive := ["A"; "B"; "C"] ]} (VArr 1) = Some ["A"; "B"; "C"]
  /\ ["A"; "B"; "C"] <> []
  /\ exists (f : loc) (res : settled object),
       load_event os_warning (VArr 1) {[ 1%positive := ["A"; "B"; "C"] ]} "f.js"
       = Some (Some {| req_file := "cpp";
                       req_args := [VStr "-P"; VArr f; VStr "f.js"];
                       req_argv := ["-P"; "-D A ,-D B ,-D C "; "f.js"] |}, res).
Proof.
  split; [reflexivity |]. split; [discriminate |].
  apply (names_travel_as_one_argument os_warning
           {[ 1%positive := ["A"; "B"; "C"] ]} (VArr 1) ["A"; "B"; "C"] "f.js").
  - reflexivity.
  - discriminate.
Defined.

(** With exactly one name configured, as in [test.esbuild.config.js], the
    preprocessor gets [-P], the single argument made of [-D], a space,
    the name and a trailing space, and the path. *)
Theorem single_name_argument_list (os : spawner) (h : store) (l : loc)
    (n p : string) :
  h !! l = Some [n] ->
  exists (req : request) (res : settled object),
    load_event os (VArr l) h p = Some (Some req, res)
    /\ req_file req = "cpp"
    /\ req_argv req = ["-P"; "-D " +:+ n +:+ " "; p].
Proof.
  intros Hl. destruct (load_event_returns os h (VArr l) [n] p Hl) as [f ->].
  by eexists _, _.
Qed.

Lemma single_name_argument_list_witness :
  ({[ 1%positive := ["DEBUG"] ]} : store) !! 1%positive = Some ["DEBUG"]
  /\ exists (req : request) (res : settled object),
       load_event os_warning (VArr 1) {[ 1%positive := ["DEBUG"] ]} "test.input.js"
       = Some (Some req, res)
       /\ req_argv req = ["-P"; "-D DEBUG "; "test.input.js"].
Proof.
  split; [reflexivity |].
  destruct (single_name_argument_list os_warning {[ 1%positive := ["DEBUG"] ]}
              1 "DEBUG" "test.input.js")
    as (req & res & Hreq & _ & Hargv); [reflexivity |].
  by exists req, res.
Defined.

(** The argument vector does not tell configurations apart: the two names
    [a] and [b] give the preprocessor the very arguments that the single
    name made of [a], a space, a comma, [-D], a space and [b] gives. *)
Theorem joined_names_collide (os : spawner) (h1 h2 : store) (l1 l2 : loc)
    (a b p : string) :
  h1 !! l1 = Some [a; b] ->
  h2 !! l2 = Some [a +:+ " ,-D " +:+ b] ->
  exists (r1 r2 : request) (res : settled object),
    load_event os (VArr l1) h1 p = Some (Some r1, res)
    /\ load_event os (VArr l2) h2 p = Some (Some r2, res)
    /\ req_argv r1 = req_argv r2.
Proof.
  intros H1 H2.
  destruct (load_event_returns os h1 (VArr l1) [a; b] p H1) as [f1 ->].
  destruct (load_event_returns os h2 (VArr l2) [a +:+ " ,-D " +:+ b] p H2) as [f2 ->].
  assert (cpp_argv [a; b] p = cpp_argv [a +:+ " ,-D " +:+ b] p) as Heq.
  { unfold cpp_argv. cbn [map String.concat]. unfold predefine_flag.
    do 2 f_equal. rewrite !append_assoc. reflexivity. }
  rewrite Heq. by eexists _, _, _.
Qed.

Lemma joined_names_collide_witness :
  ({[ 1%positive := ["A"; "B"] ]} : store) !! 1%positive = Some ["A"; "B"]
  /\ ({[ 1%positive := ["A ,-D B"] ]} : store) !! 1%positive
     = Some ["A" +:+ " ,-D " +:+ "B"]
  /\ exists (r1 r2 : request) (res : settled object),
       load_event os_warning (VArr 1) {[ 1%positive := ["A"; "B"] ]} "f.js"
       = Some (Some r1, res)
       /\ load_event os_warning (VArr 1) {[ 1%positive := ["A ,-D B"] ]} "f.js"
          = Some (Some r2, res)
       /\ req_argv r1 = req_argv r2.
Proof.
  split; [reflexivity |]. split; [reflexivity |].
  apply (joined_names_collide os_warning {[ 1%positive := ["A"; "B"] ]}
           {[ 1%positive := ["A ,-D B"] ]} 1 1 "A" "B" "f.js"); reflexivity.
Defined.

(** No empty argument reaches the preprocessor: for a non-empty path,
    every entry of the argument vector is a non-empty string, with or
    without names configured. *)
Theorem no_empty_argument (os : spawner) (h : store) (cfg : val)
    (names : list string) (p : string) :
  config_names h cfg = Some names ->
  p <> "" ->
  exists (req : request) (res : settled object),
    load_event os cfg h p = Some (Some req, res)
    /\ Forall (fun a => a <> "") (req_argv req).
Proof.
  intros Hc Hp. destruct (load_event_returns os h cfg names p Hc) as [f ->].
  eexists _, _. split; [reflexivity |]. cbn [req_argv]. unfold cpp_argv.
  destruct names as [| n names]; repeat apply Forall_cons_2;
    try apply Forall_nil_2; try exact Hp; try discriminate.
  apply joined_flags_nonempty.
Qed.

Lemma no_empty_argument_witness :
  config_names ∅ VUndefined = Some []
  /\ "a.js" <> ""
  /\ exists (req : request) (res : settled object),
       load_event os_warning VUndefined ∅ "a.js" = Some (Some req, res)
       /\ Forall (fun a => a <> "") (req_argv req).
Proof.
  split; [reflexivity |]. split; [discriminate |].
  apply (no_empty_argument os_warning ∅ VUndefined [] "a.js");
    [reflexivity | discriminate].
Defined.

(** ** Construction: errors and instances *)

(** [null] and a string make construction throw a [TypeError] in every
    store, before anything is allocated or registered: the default
    parameter stands in for [undefined] only, and neither value has a
    [map] method.  The omitted argument, in the same store, returns. *)
Theorem construction_throws_on_null_and_string (h : store) (s : string) :
  (exists msg : string, cppPlugin VNull h = Throw (TypeError msg))
  /\ (exists msg : string, cppPlugin (VStr s) h = Throw (TypeError msg))
  /\ (exists (f : loc) (h' : store), cppPlugin VUndefined h = Ret (descriptor f, h')).
Proof.
  split; [by eexists |]. split; [by eexists |].
  destruct (cppPlugin_returns h VUndefined [] eq_refl) as (f & h' & Hp & _).
  by exists f, h'.
Qed.

(** A second plugin built later, from the same array or another, gets a
    flag array of its own and leaves the first plugin's flags as they
    were. *)
Theorem instances_do_not_share_flags (h : store) (cfg1 cfg2 : val)
    (names1 names2 : list string) :
  config_names h cfg1 = Some names1 ->
  config_names h cfg2 = Some names2 ->
  exists (f1 f2 : loc) (h1 h2 : store),
    cppPlugin cfg1 h = Ret (descriptor f1, h1)
    /\ cppPlugin cfg2 h1 = Ret (descriptor f2, h2)
    /\ f1 <> f2
    /\ h2 !! f1 = Some (map predefine_flag names1)
    /\ h2 !! f2 = Some (map predefine_flag names2).
Proof.
  intros Hc1 Hc2.
  destruct (cppPlugin_returns h cfg1 names1 Hc1) as (f1 & h1 & Hp1 & Hf1 & _ & Hsub1).
  assert (config_names h1 cfg2 = Some names2) as Hc2'.
  { destruct cfg2 as [| | s | l]; cbn [config_names] in *; try done.
    by eapply lookup_weaken. }
  destruct (cppPlugin_returns h1 cfg2 names2 Hc2') as (f2 & h2 & Hp2 & Hf2 & Hnew & Hsub2).
  exists f1, f2, h1, h2. split; [exact Hp1 |]. split; [exact Hp2 |].
  split; [congruence |]. split; [by eapply lookup_weaken | exact Hf2].
Qed.

Lemma instances_do_not_share_flags_witness :
  config_names {[ 1%positive := ["DEBUG"] ]} (VArr 1) = Some ["DEBUG"]
  /\ config_names {[ 1%positive := ["DEBUG"] ]} VUndefined = Some []
  /\ exists (f1 f2 : loc) (h1 h2 : store),
       cppPlugin (VArr 1) {[ 1%positive := ["DEBUG"] ]} = Ret (descriptor f1, h1)
       /\ cppPlugin VUndefined h1 = Ret (descriptor f2, h2)
       /\ f1 <> f2
       /\ h2 !! f1 = Some ["-D DEBUG "]
       /\ h2 !! f2 = Some [].
Proof.
  split; [reflexivity |]. split; [reflexivity |].
  apply (instances_do_not_share_flags {[ 1%positive := ["DEBUG"] ]}
           (VArr 1) VUndefined ["DEBUG"] []); reflexivity.
Defined.

(** ** One load, one subprocess *)

(** A load event starts exactly one subprocess, the executable [cpp],
    whether that subprocess succeeds or fails: nothing is retried and
    nothing else is run. *)
Theorem one_subprocess_per_load (os : spawner) (f : loc) (args : OnLoadArgs)
    (h : store) :
  calls os h (onLoad_callback f args h)
  = [{| req_file := "cpp"; req_args := options f args h;
        req_argv := argv h (options f args h) |}].
Proof.
  unfold onLoad_callback. cbn [calls]. f_equal.
  destruct (execFile os h "cpp" (options f args h)); reflexivity.
Qed.

(** The load is fulfilled exactly when the subprocess exits with status
    zero and neither captured stream went past the 1 MiB buffer.  In
    every other case, a subprocess ended by a signal and one that exits
    with status zero after printing too much among them, the load is
    rejected with the error made for that subprocess, and what it had
    printed is not returned. *)
Theorem load_fulfilled_iff (os : spawner) (f : loc) (args : OnLoadArgs)
    (h : store) :
  ((exists r : object, run os h (onLoad_callback f args h) = Fulfilled r)
   <-> exited_zero (os "cpp" (argv h (options f args h)))
       && within_buffer (os "cpp" (argv h (options f args h))) = true)
  /\ (exited_zero (os "cpp" (argv h (options f args h)))
      && within_buffer (os "cpp" (argv h (options f args h))) = false ->
      run os h (onLoad_callback f args h)
      = Rejected (ChildError (os "cpp" (argv h (options f args h))))).
Proof.
  rewrite run_onLoad_callback.
  destruct (exited_zero (os "cpp" (argv h (options f args h)))) eqn:Hz.
  - destruct (within_buffer _) eqn:Hw; cbn [andb].
    + destruct (os "cpp" _) as [c | st out err | sg out err]; try discriminate Hz.
      destruct st; try discriminate Hz. cbn [within_buffer] in Hw.
      apply andb_prop in Hw as [Hout%negb_true_iff Herr%negb_true_iff].
      rewrite (settle_within out err Hout Herr).
      split; [| discriminate]. split; [reflexivity | by eexists].
    + rewrite (settle_overflow _ Hw).
      split; [| reflexivity]. split; [intros [r Hr]; discriminate Hr | discriminate].
  - cbn [andb]. rewrite (settle_rejected _ Hz).
    split; [| reflexivity]. split; [intros [r Hr]; discriminate Hr | discriminate].
Qed.

(** Status zero does not save a load whose output went past the
    buffer. *)
Example flooded_load_not_fulfilled :
  exited_zero (os_flood "cpp" []) = true
  /\ within_buffer (os_flood "cpp" []) = false
  /\ forall r : object,
       run os_flood {[ 1%positive := ["-D DEBUG "] ]}
           (onLoad_callback 1 {| path := "a.js" |} {[ 1%positive := ["-D DEBUG "] ]})
       <> Fulfilled r.
Proof.
  split; [reflexivity |]. split.
  - unfold os_flood. cbn [within_buffer]. by rewrite big_output_overflows.
  - intros r. rewrite flooded_load_rejected. discriminate.
Qed.

(** A preprocessor ended by a signal after printing part of its output. *)
Example killed_child_rejects :
  run (fun _ _ => Killed "SIGTERM" "let a" "") {[ 1%positive := ["-D DEBUG "] ]}
      (onLoad_callback 1 {| path := "a.js" |} {[ 1%positive := ["-D DEBUG "] ]})
  = Rejected (ChildError (Killed "SIGTERM" "let a" "")).
Proof. reflexivity. Qed.
